(** * MMS protocol data units (package [mms], file [mms/mms.go])

    A shallow embedding of the PDU model of the MMS encapsulation
    protocol: the wire constants, the five message structs with their
    [encode] struct tags, the constructors, the identifier generator
    [genUUID] and the response classifier [MSendConf.Status].

    Conventions.
    - A Go [byte] or [uint64] field is a [Z]; the functions embedded here
      only copy or compare such values, so no wrap-around arises.
    - A Go [string] is a [string]; a buffer [[]byte] is a [list Byte.byte].
    - A Go slice is a window (backing array, offset, length) into a heap
      of arrays, so that writes through the slice are visible to every
      holder of the same backing array.
    - An index outside the backing array makes the Go runtime panic; the
      embedding returns [None] there. *)

From Stdlib Require Import ZArith Strings.Ascii Strings.String Strings.Byte.
From stdpp Require Import gmap strings list fin_maps.

Local Open Scope Z_scope.

(** ** Wire constants *)

(** MMS field names, OMA-WAP-MMS section 7.3 table 12. *)
Definition BCC : Z := 0x01.
Definition CC : Z := 0x02.
Definition X_MMS_CONTENT_LOCATION : Z := 0x03.
Definition CONTENT_TYPE : Z := 0x04.
Definition DATE : Z := 0x05.
Definition X_MMS_DELIVERY_REPORT : Z := 0x06.
Definition X_MMS_DELIVERY_TIME : Z := 0x07.
Definition X_MMS_EXPIRY : Z := 0x08.
Definition FROM : Z := 0x09.
Definition X_MMS_MESSAGE_CLASS : Z := 0x0A.
Definition MESSAGE_ID : Z := 0x0B.
Definition X_MMS_MESSAGE_TYPE : Z := 0x0C.
Definition X_MMS_MMS_VERSION : Z := 0x0D.
Definition X_MMS_MESSAGE_SIZE : Z := 0x0E.
Definition X_MMS_PRIORITY : Z := 0x0F.
Definition X_MMS_READ_REPORT : Z := 0x10.
Definition X_MMS_REPORT_ALLOWED : Z := 0x11.
Definition X_MMS_RESPONSE_STATUS : Z := 0x12.
Definition X_MMS_RESPONSE_TEXT : Z := 0x13.
Definition X_MMS_SENDER_VISIBILITY : Z := 0x14.
Definition X_MMS_STATUS : Z := 0x15.
Definition SUBJECT : Z := 0x16.
Definition TO : Z := 0x17.
Definition X_MMS_TRANSACTION_ID : Z := 0x18.
Definition X_MMS_RETRIEVE_STATUS : Z := 0x19.
Definition X_MMS_RETRIEVE_TEXT : Z := 0x1A.
Definition X_MMS_READ_STATUS : Z := 0x1B.
Definition X_MMS_REPLY_CHARGING : Z := 0x1C.
Definition X_MMS_REPLY_CHARGING_DEADLINE : Z := 0x1D.
Definition X_MMS_REPLY_CHARGING_ID : Z := 0x1E.
Definition X_MMS_REPLY_CHARGING_SIZE : Z := 0x1F.
Definition X_MMS_PREVIOUSLY_SENT_BY : Z := 0x20.
Definition X_MMS_PREVIOUSLY_SENT_DATE : Z := 0x21.

(** Content type assignments, section 7.3 table 13. *)
Definition PUSH_APPLICATION_ID : Z := 4.
Definition VND_WAP_MMS_MESSAGE : string := "application/vnd.wap.mms-message".

Definition TYPE_SEND_REQ : Z := 0x80.
Definition TYPE_SEND_CONF : Z := 0x81.
Definition TYPE_NOTIFICATION_IND : Z := 0x82.
Definition TYPE_NOTIFYRESP_IND : Z := 0x83.
Definition TYPE_RETRIEVE_CONF : Z := 0x84.
Definition TYPE_ACKNOWLEDGE_IND : Z := 0x85.
Definition TYPE_DELIVERY_IND : Z := 0x86.

Definition MMS_MESSAGE_VERSION_1_0 : Z := 0x90.
Definition MMS_MESSAGE_VERSION_1_1 : Z := 0x91.
Definition MMS_MESSAGE_VERSION_1_2 : Z := 0x92.
Definition MMS_MESSAGE_VERSION_1_3 : Z := 0x93.

Definition TOKEN_DATE_ABS : Z := 0x80.
Definition TOKEN_DATE_REL : Z := 0x81.

Definition TOKEN_ADDRESS_PRESENT : Z := 0x80.
Definition TOKEN_INSERT_ADDRESS : Z := 0x81.

Definition CLASS_PERSONAL : Z := 0x80.
Definition CLASS_ADVERTISEMENT : Z := 0x81.
Definition CLASS_INFORMATIONAL : Z := 0x82.
Definition CLASS_AUTO : Z := 0x83.

Definition REPORT_ALLOWED_YES : Z := 128.
Definition REPORT_ALLOWED_NO : Z := 129.

(** Response status, OMA-WAP-MMS section 7.2.27. *)
Definition ResponseStatusOk : Z := 128.
Definition ResponseStatusErrorUnspecified : Z := 129.
Definition ResponseStatusErrorServiceDenied : Z := 130.
Definition ResponseStatusErrorMessageFormatCorrupt : Z := 131.
Definition ResponseStatusErrorSendingAddressUnresolved : Z := 132.
Definition ResponseStatusErrorMessageNotFound : Z := 133.
Definition ResponseStatusErrorNetworkProblem : Z := 134.
Definition ResponseStatusErrorContentNotAccepted : Z := 135.
Definition ResponseStatusErrorUnsupportedMessage : Z := 136.

Definition ResponseStatusErrorTransientFailure : Z := 192.
Definition ResponseStatusErrorTransientAddressUnresolved : Z := 193.
Definition ResponseStatusErrorTransientMessageNotFound : Z := 194.
Definition ResponseStatusErrorTransientNetworkProblem : Z := 195.

Definition ResponseStatusErrorTransientMaxReserved : Z := 223.

Definition ResponseStatusErrorPermanentFailure : Z := 224.
Definition ResponseStatusErrorPermanentServiceDenied : Z := 225.
Definition ResponseStatusErrorPermanentMessageFormatCorrupt : Z := 226.
Definition ResponseStatusErrorPermanentAddressUnresolved : Z := 227.
Definition ResponseStatusErrorPermanentMessageNotFound : Z := 228.
Definition ResponseStatusErrorPermanentContentNotAccepted : Z := 229.
Definition ResponseStatusErrorPermanentReplyChargingLimitationsNotMet : Z := 230.
Definition ResponseStatusErrorPermanentReplyChargingRequestNotAccepted : Z := 231.
Definition ResponseStatusErrorPermanentReplyChargingForwardingDenied : Z := 232.
Definition ResponseStatusErrorPermanentReplyChargingNotSupported : Z := 233.

Definition ResponseStatusErrorPermamentMaxReserved : Z := 255.

(** Status, OMA-WAP-MMS section 7.2.23. *)
Definition STATUS_EXPIRED : Z := 128.
Definition STATUS_RETRIEVED : Z := 129.
Definition STATUS_REJECTED : Z := 130.
Definition STATUS_DEFERRED : Z := 131.
Definition STATUS_UNRECOGNIZED : Z := 132.

(** ** Errors

    [Status] returns a Go [error]: [nil] or one of the two package-level
    error values. *)
Inductive error : Set :=
  | nil_error
  | ErrTransient
  | ErrPermanent.

#[global] Instance error_eq_dec : EqDecision error.
Proof. solve_decision. Defined.

(** The message carried by each error value ([errors.New]). *)
Definition Error (e : error) : string :=
  match e with
  | nil_error => ""
  | ErrTransient => "Error-transient-failure"
  | ErrPermanent => "Error-permament-failure"
  end.

(** ** m-send.conf and its classification *)

Record MSendConf : Set := mkMSendConf {
  sc_Type : Z;
  sc_TransactionId : string;
  sc_Version : Z;
  sc_ResponseStatus : Z;
  sc_ResponseText : string;
  sc_MessageId : string
}.

Definition NewMSendConf : MSendConf :=
  {| sc_Type := TYPE_SEND_CONF; sc_TransactionId := ""; sc_Version := 0;
     sc_ResponseStatus := 0; sc_ResponseText := ""; sc_MessageId := "" |}.

(** [MSendConf.Status]: the [switch] over the individually listed codes,
    then the two grouped ranges, then the default. *)
Definition Status (mSendConf : MSendConf) : error :=
  let s := sc_ResponseStatus mSendConf in
  if (s =? ResponseStatusOk)%Z then nil_error
  else if (s =? ResponseStatusErrorUnspecified)%Z then ErrTransient
  else if (s =? ResponseStatusErrorServiceDenied)%Z then ErrTransient
  else if (s =? ResponseStatusErrorMessageFormatCorrupt)%Z then ErrPermanent
  else if (s =? ResponseStatusErrorSendingAddressUnresolved)%Z then ErrPermanent
  else if (s =? ResponseStatusErrorMessageNotFound)%Z then ErrPermanent
  else if (s =? ResponseStatusErrorNetworkProblem)%Z then ErrTransient
  else if (s =? ResponseStatusErrorContentNotAccepted)%Z then ErrPermanent
  else if (s =? ResponseStatusErrorUnsupportedMessage)%Z then ErrPermanent
  else if (ResponseStatusErrorTransientFailure <=? s)%Z
          && (s <=? ResponseStatusErrorTransientMaxReserved)%Z then ErrTransient
  else if (ResponseStatusErrorPermanentFailure <=? s)%Z
          && (s <=? ResponseStatusErrorPermamentMaxReserved)%Z then ErrPermanent
  else ErrPermanent.

(** A confirmation as the decoder would fill it for status byte [s]. *)
Definition conf_with_status (s : Z) : MSendConf :=
  {| sc_Type := TYPE_SEND_CONF; sc_TransactionId := ""; sc_Version := 0;
     sc_ResponseStatus := s; sc_ResponseText := ""; sc_MessageId := "" |}.

(** ** Struct declarations and their [encode] tags

    The encoder reads the struct tags by reflection; the declarations are
    kept here as data, one entry per field in declaration order: the field
    name, its Go type and the key/value pairs of its tag. *)

Inductive PduStruct : Set :=
  | S_MSendReq
  | S_MSendConf
  | S_MNotificationInd
  | S_MNotifyRespInd
  | S_MRetrieveConf.

#[global] Instance PduStruct_eq_dec : EqDecision PduStruct.
Proof. solve_decision. Defined.

Definition all_structs : list PduStruct :=
  [S_MSendReq; S_MSendConf; S_MNotificationInd; S_MNotifyRespInd; S_MRetrieveConf].

Record field_decl : Set := mkField {
  fd_name : string;
  fd_gotype : string;
  fd_tag : list (string * string)
}.

Definition untagged (name gotype : string) : field_decl := mkField name gotype [].
Definition encode_no (name gotype : string) : field_decl :=
  mkField name gotype [("encode", "no")].
Definition encode_optional (name gotype : string) : field_decl :=
  mkField name gotype [("encode", "optional")].

Definition struct_fields (t : PduStruct) : list field_decl :=
  match t with
  | S_MSendReq =>
      [ encode_no "UUID" "string";
        untagged "Type" "byte";
        untagged "TransactionId" "string";
        untagged "Version" "byte";
        encode_optional "Date" "uint64";
        untagged "From" "string";
        untagged "To" "string";
        encode_no "Cc" "string";
        encode_no "Bcc" "string";
        encode_optional "Subject" "string";
        encode_optional "Class" "byte";
        encode_optional "Expiry" "uint64";
        encode_optional "DeliveryTime" "uint64";
        encode_optional "Priority" "byte";
        encode_optional "SenderVisibility" "byte";
        encode_optional "DeliveryReport" "byte";
        encode_optional "ReadReply" "byte";
        untagged "ContentType" "string";
        encode_no "Attachments" "[]*Attachment" ]
  | S_MSendConf =>
      [ untagged "Type" "byte";
        untagged "TransactionId" "string";
        untagged "Version" "byte";
        untagged "ResponseStatus" "byte";
        untagged "ResponseText" "string";
        untagged "MessageId" "string" ]
  | S_MNotificationInd =>
      [ untagged "MMSReader" "MMSReader";
        untagged "UUID" "string";
        untagged "Type" "byte";
        untagged "Version" "byte";
        untagged "Class" "byte";
        untagged "DeliveryReport" "byte";
        untagged "ReplyCharging" "byte";
        untagged "ReplyChargingDeadline" "byte";
        untagged "ReplyChargingId" "string";
        untagged "TransactionId" "string";
        untagged "ContentLocation" "string";
        untagged "From" "string";
        untagged "Subject" "string";
        untagged "Expiry" "uint64";
        untagged "Size" "uint64" ]
  | S_MNotifyRespInd =>
      [ encode_no "UUID" "string";
        untagged "Type" "byte";
        untagged "TransactionId" "string";
        untagged "Version" "byte";
        untagged "Status" "byte";
        untagged "ReportAllowed" "bool" ]
  | S_MRetrieveConf =>
      [ untagged "MMSReader" "MMSReader";
        untagged "UUID" "string";
        untagged "Type" "byte";
        untagged "Version" "byte";
        untagged "Status" "byte";
        untagged "Class" "byte";
        untagged "Priority" "byte";
        untagged "ReplyCharging" "byte";
        untagged "ReplyChargingDeadline" "byte";
        untagged "ReplyChargingId" "string";
        untagged "ReadReport" "byte";
        untagged "RetrieveStatus" "byte";
        untagged "DeliveryReport" "byte";
        untagged "TransactionId" "string";
        untagged "MessageId" "string";
        untagged "RetrieveText" "string";
        untagged "From" "string";
        untagged "Cc" "string";
        untagged "Subject" "string";
        untagged "To" "string";
        untagged "ReportAllowed" "bool";
        untagged "Date" "uint64";
        untagged "Content" "Attachment";
        untagged "Attachments" "[]Attachment";
        untagged "Data" "[]byte" ]
  end.

(** [reflect.StructTag.Get]: the value stored under [key], the empty
    string when the tag has no such key. *)
Fixpoint Tag_Get (tag : list (string * string)) (key : string) : string :=
  match tag with
  | [] => ""
  | (k, v) :: rest => if String.eqb k key then v else Tag_Get rest key
  end.

Fixpoint FieldByName (fields : list field_decl) (name : string) : option field_decl :=
  match fields with
  | [] => None
  | f :: rest => if String.eqb (fd_name f) name then Some f else FieldByName rest name
  end.

(** The [encode] tag of field [name] of struct [t]; [None] when the struct
    has no such field. *)
Definition encode_tag (t : PduStruct) (name : string) : option string :=
  match FieldByName (struct_fields t) name with
  | Some f => Some (Tag_Get (fd_tag f) "encode")
  | None => None
  end.

(** Every (struct, field) pair whose [encode] tag is [no], in declaration
    order. *)
Definition excluded_fields : list (PduStruct * string) :=
  t ← all_structs;
  f ← struct_fields t;
  if String.eqb (Tag_Get (fd_tag f) "encode") "no" then [(t, fd_name f)] else [].

(** Every (struct, field) pair that carries an [encode] tag at all. *)
Definition tagged_fields : list (PduStruct * string) :=
  t ← all_structs;
  f ← struct_fields t;
  if String.eqb (Tag_Get (fd_tag f) "encode") "" then [] else [(t, fd_name f)].

(** ** The identifier generator

    [genUUID] opens [/dev/urandom] once and reads once. What the operating
    system answers is an input of the model: either the open fails, or it
    succeeds and the single [Read] delivers some bytes (at most as many as
    the buffer holds are copied) together with an error flag. *)

Record read_result : Set := mkRead {
  rd_data : list Byte.byte;
  rd_err : bool
}.

Inductive open_result : Set :=
  | OpenError
  | Opened (r : read_result).

(** [make([]byte, n)]: a zeroed buffer. *)
Definition make_bytes (n : nat) : list Byte.byte := replicate n x00.

(** [File.Read(b)]: overwrite a prefix of [b] with the delivered bytes and
    report how many were copied and whether an error occurred. *)
Definition Read (r : read_result) (b : list Byte.byte)
  : list Byte.byte * (nat * bool) :=
  let d := take (length b) (rd_data r) in
  ((d ++ drop (length d) b)%list, (length d, rd_err r)).

Definition hex_digit (n : N) : ascii :=
  match n with
  | 0%N => "0" | 1%N => "1" | 2%N => "2" | 3%N => "3"
  | 4%N => "4" | 5%N => "5" | 6%N => "6" | 7%N => "7"
  | 8%N => "8" | 9%N => "9" | 10%N => "a" | 11%N => "b"
  | 12%N => "c" | 13%N => "d" | 14%N => "e" | _ => "f"
  end%char.

Definition hex_byte (b : Byte.byte) : string :=
  let n := Byte.to_N b in
  String (hex_digit (n / 16)) (String (hex_digit (n mod 16)) EmptyString).

(** [fmt.Sprintf("%x", b)] for a byte slice: two lower-case hexadecimal
    digits per byte, no separator. *)
Fixpoint Sprintf_x (b : list Byte.byte) : string :=
  match b with
  | [] => ""
  | x :: rest => hex_byte x +:+ Sprintf_x rest
  end.

Definition fallback_id : string := "1234567890ABCDEF".

(** [genUUID]. The values returned by [Read] are dropped, as in the source. *)
Definition genUUID (random : open_result) : string :=
  match random with
  | OpenError => fallback_id
  | Opened r =>
      let b := make_bytes 16 in
      let '(b, _) := Read r b in
      Sprintf_x b
  end.

(** ** Slices and the heap of backing arrays *)

Definition loc : Set := positive.

(** A slice value: the backing array ([None] for the nil slice), the
    offset of its first element in that array, and its length. *)
Record Slice : Set := mkSlice {
  sl_array : option loc;
  sl_off : nat;
  sl_len : nat
}.

Definition nil_slice : Slice := mkSlice None 0 0.

Section Arrays.
Context {A : Type}.

(** [s[i]] as a value: bounds check against the slice length, then the
    load from the backing array. *)
Definition index_get (m : gmap loc (list A)) (s : Slice) (i : nat) : option A :=
  if decide (i < sl_len s)%nat then
    a ← sl_array s; arr ← m !! a; arr !! (sl_off s + i)%nat
  else None.

(** [s[i] = v]. *)
Definition index_set (m : gmap loc (list A)) (s : Slice) (i : nat) (v : A)
  : option (gmap loc (list A)) :=
  if decide (i < sl_len s)%nat then
    a ← sl_array s; arr ← m !! a;
    if decide (sl_off s + i < length arr)%nat
    then Some (<[a := <[(sl_off s + i)%nat := v]> arr]> m)
    else None
  else None.

(** The content of slot [j] of the backing array at [l], if there is one. *)
Definition cell (m : gmap loc (list A)) (l : loc) (j : nat) : option A :=
  arr ← m !! l; arr !! j.

(** The slots of the heap a slice gives access to. *)
Definition in_window (s : Slice) (l : loc) (j : nat) : Prop :=
  sl_array s = Some l ∧ (sl_off s ≤ j < sl_off s + sl_len s)%nat.

#[global] Instance in_window_dec s l j : Decision (in_window s l j).
Proof. unfold in_window. apply _. Defined.

(** The elements seen through the slice, first to last. *)
Definition slice_elems (m : gmap loc (list A)) (s : Slice) : option (list A) :=
  mapM (index_get m s) (seq 0 (sl_len s)).
End Arrays.

(** [strings.Join]. *)
Fixpoint Join (elems : list string) (sep : string) : string :=
  match elems with
  | [] => ""
  | e :: rest =>
      match rest with
      | [] => e
      | _ :: _ => e +:+ sep +:+ Join rest sep
      end
  end.

Definition plmn : string := "/TYPE=PLMN".

(** [r += "/TYPE=PLMN"] *)
Definition with_plmn (r : string) : string := r +:+ plmn.

(** The body of the [range] loop of [NewMSendReq], run over the indices
    [idx]: [recipients[i] += "/TYPE=PLMN"]. *)
Fixpoint range_append (m : gmap loc (list string)) (recipients : Slice)
    (idx : list nat) : option (gmap loc (list string)) :=
  match idx with
  | [] => Some m
  | i :: rest =>
      v ← index_get m recipients i;
      m' ← index_set m recipients i (with_plmn v);
      range_append m' recipients rest
  end.

(** The backing array [arr] of [recipients] once the slots at the indices
    [idx] have been rewritten; the closed form of what [range_append]
    stores. *)
Definition bumped (recipients : Slice) (arr : list string) (idx : list nat)
  : list string :=
  foldl (λ acc i, alter with_plmn (sl_off recipients + i)%nat acc) arr idx.

(** ** The message structs and their constructors *)

Section PDU.
(** [Attachment] is declared in another file of the package; only its
    zero value is needed here. [dynamic] stands for the values an empty
    interface ([MMSReader], [MMSWriter]) may hold. *)
Context {Attachment : Type} (Attachment_zero : Attachment) {dynamic : Type}.

(** An empty interface value: [None] is the nil interface. *)
Definition MMSReader : Type := option dynamic.
Definition MMSWriter : Type := option dynamic.

(** The memory a caller shares with this package: the backing arrays of
    its [[]string] slices, those of its [[]*Attachment] slices (each
    slot a pointer or nil), and the attachments pointed to. *)
Record Heap : Type := mkHeap {
  h_strings : gmap loc (list string);
  h_attptrs : gmap loc (list (option loc));
  h_attachments : gmap loc Attachment
}.

(** m-send.req *)
Record MSendReq : Type := mkMSendReq {
  sr_UUID : string;
  sr_Type : Z;
  sr_TransactionId : string;
  sr_Version : Z;
  sr_Date : Z;
  sr_From : string;
  sr_To : string;
  sr_Cc : string;
  sr_Bcc : string;
  sr_Subject : string;
  sr_Class : Z;
  sr_Expiry : Z;
  sr_DeliveryTime : Z;
  sr_Priority : Z;
  sr_SenderVisibility : Z;
  sr_DeliveryReport : Z;
  sr_ReadReply : Z;
  sr_ContentType : string;
  sr_Attachments : Slice
}.

(** m-notification.ind *)
Record MNotificationInd : Type := mkMNotificationInd {
  ni_MMSReader : MMSReader;
  ni_UUID : string;
  ni_Type : Z;
  ni_Version : Z;
  ni_Class : Z;
  ni_DeliveryReport : Z;
  ni_ReplyCharging : Z;
  ni_ReplyChargingDeadline : Z;
  ni_ReplyChargingId : string;
  ni_TransactionId : string;
  ni_ContentLocation : string;
  ni_From : string;
  ni_Subject : string;
  ni_Expiry : Z;
  ni_Size : Z
}.

(** m-notifyresp.ind *)
Record MNotifyRespInd : Set := mkMNotifyRespInd {
  nr_UUID : string;
  nr_Type : Z;
  nr_TransactionId : string;
  nr_Version : Z;
  nr_Status : Z;
  nr_ReportAllowed : bool
}.

(** m-retrieve.conf *)
Record MRetrieveConf : Type := mkMRetrieveConf {
  rc_MMSReader : MMSReader;
  rc_UUID : string;
  rc_Type : Z;
  rc_Version : Z;
  rc_Status : Z;
  rc_Class : Z;
  rc_Priority : Z;
  rc_ReplyCharging : Z;
  rc_ReplyChargingDeadline : Z;
  rc_ReplyChargingId : string;
  rc_ReadReport : Z;
  rc_RetrieveStatus : Z;
  rc_DeliveryReport : Z;
  rc_TransactionId : string;
  rc_MessageId : string;
  rc_RetrieveText : string;
  rc_From : string;
  rc_Cc : string;
  rc_Subject : string;
  rc_To : string;
  rc_ReportAllowed : bool;
  rc_Date : Z;
  rc_Content : Attachment;
  rc_Attachments : Slice;
  rc_Data : Slice
}.

(** [NewMSendReq]: the loop over the caller's slice, the identifier, the
    join of the rewritten entries, and the struct literal. The caller's
    [attachments] slice value is stored as it is. *)
Definition NewMSendReq (random : open_result) (h : Heap)
    (recipients attachments : Slice) : option (Heap * MSendReq) :=
  strs ← range_append (h_strings h) recipients (seq 0 (sl_len recipients));
  let uuid := genUUID random in
  elems ← slice_elems strs recipients;
  Some (mkHeap strs (h_attptrs h) (h_attachments h),
        {| sr_UUID := uuid;
           sr_Type := TYPE_SEND_REQ;
           sr_TransactionId := uuid;
           sr_Version := MMS_MESSAGE_VERSION_1_3;
           sr_Date := 0;
           sr_From := "";
           sr_To := Join elems ",";
           sr_Cc := "";
           sr_Bcc := "";
           sr_Subject := "";
           sr_Class := 0;
           sr_Expiry := 0;
           sr_DeliveryTime := 0;
           sr_Priority := 0;
           sr_SenderVisibility := 0;
           sr_DeliveryReport := 0;
           sr_ReadReply := 0;
           sr_ContentType := "application/vnd.wap.multipart.related";
           sr_Attachments := attachments |}).

Definition NewMNotificationInd (random : open_result) : MNotificationInd :=
  {| ni_MMSReader := None;
     ni_UUID := genUUID random;
     ni_Type := TYPE_NOTIFICATION_IND;
     ni_Version := 0;
     ni_Class := 0;
     ni_DeliveryReport := 0;
     ni_ReplyCharging := 0;
     ni_ReplyChargingDeadline := 0;
     ni_ReplyChargingId := "";
     ni_TransactionId := "";
     ni_ContentLocation := "";
     ni_From := "";
     ni_Subject := "";
     ni_Expiry := 0;
     ni_Size := 0 |}.

(** Method [NewMNotifyRespInd] of [MNotificationInd]. *)
Definition MNotificationInd_NewMNotifyRespInd
    (mNotificationInd : MNotificationInd) (status : Z) (deliveryReport : bool)
  : MNotifyRespInd :=
  {| nr_Type := TYPE_NOTIFYRESP_IND;
     nr_UUID := ni_UUID mNotificationInd;
     nr_TransactionId := ni_TransactionId mNotificationInd;
     nr_Version := ni_Version mNotificationInd;
     nr_Status := status;
     nr_ReportAllowed := deliveryReport |}.

(** Method [NewMNotifyRespInd] of [MRetrieveConf]. *)
Definition MRetrieveConf_NewMNotifyRespInd
    (mRetrieveConf : MRetrieveConf) (deliveryReport : bool) : MNotifyRespInd :=
  {| nr_Type := TYPE_NOTIFYRESP_IND;
     nr_UUID := rc_UUID mRetrieveConf;
     nr_TransactionId := rc_TransactionId mRetrieveConf;
     nr_Version := rc_Version mRetrieveConf;
     nr_Status := STATUS_RETRIEVED;
     nr_ReportAllowed := deliveryReport |}.

Definition NewMNotifyRespInd : MNotifyRespInd :=
  {| nr_UUID := ""; nr_Type := TYPE_NOTIFYRESP_IND; nr_TransactionId := "";
     nr_Version := 0; nr_Status := 0; nr_ReportAllowed := false |}.

Definition NewMRetrieveConf (uuid : string) : MRetrieveConf :=
  {| rc_MMSReader := None;
     rc_UUID := uuid;
     rc_Type := TYPE_RETRIEVE_CONF;
     rc_Version := 0;
     rc_Status := 0;
     rc_Class := 0;
     rc_Priority := 0;
     rc_ReplyCharging := 0;
     rc_ReplyChargingDeadline := 0;
     rc_ReplyChargingId := "";
     rc_ReadReport := 0;
     rc_RetrieveStatus := 0;
     rc_DeliveryReport := 0;
     rc_TransactionId := "";
     rc_MessageId := "";
     rc_RetrieveText := "";
     rc_From := "";
     rc_Cc := "";
     rc_Subject := "";
     rc_To := "";
     rc_ReportAllowed := false;
     rc_Date := 0;
     rc_Content := Attachment_zero;
     rc_Attachments := nil_slice;
     rc_Data := nil_slice |}.
End PDU.

Arguments Heap : clear implicits.
Arguments MSendReq : clear implicits.
Arguments MNotificationInd : clear implicits.
Arguments MRetrieveConf : clear implicits.
Arguments MMSReader : clear implicits.
Arguments MMSWriter : clear implicits.

(** ** Sample inputs

    A caller's heap with two string arrays, one array of attachment
    pointers and one attachment; a slice over the middle two slots of the
    first string array; a slice over the attachment pointers. *)

Definition sample_heap : Heap nat :=
  mkHeap {[ 1%positive := ["x"; "a"; "b"; "y"]; 2%positive := ["z"] ]}
         {[ 3%positive := [Some 4%positive; None] ]}
         {[ 4%positive := 7%nat ]}.

Definition sample_recipients : Slice := mkSlice (Some 1%positive) 1 2.
Definition sample_attachments : Slice := mkSlice (Some 3%positive) 0 2.

(** An empty, non-nil slice over the same array. *)
Definition sample_no_recipients : Slice := mkSlice (Some 1%positive) 1 0.

(** ** Notions used to state properties *)

(** The characters [fmt.Sprintf] produces for the verb [x]. *)
Definition is_lower_hex (c : ascii) : bool :=
  match c with
  | "0" | "1" | "2" | "3" | "4" | "5" | "6" | "7" | "8" | "9"
  | "a" | "b" | "c" | "d" | "e" | "f" => true
  | _ => false
  end%char.

Fixpoint string_forallb (P : ascii → bool) (s : string) : bool :=
  match s with
  | EmptyString => true
  | String c rest => P c && string_forallb P rest
  end.

(** Element [i] of the slice [other] is stored in a slot that the slice
    [s] gives access to: same backing array, position inside the window
    of [s]. *)
Definition shares_slot (s other : Slice) (i : nat) : Prop :=
  sl_array other = sl_array s ∧
  (sl_off s ≤ sl_off other + i < sl_off s + sl_len s)%nat.

#[global] Instance shares_slot_dec s other i : Decision (shares_slot s other i).
Proof. unfold shares_slot. apply _. Defined.

(** The two slices have no slot in common. *)
Definition disjoint_slices (s other : Slice) : Prop :=
  sl_array other ≠ sl_array s ∨
  (sl_off other + sl_len other ≤ sl_off s)%nat ∨
  (sl_off s + sl_len s ≤ sl_off other)%nat.

(** Further sample slices: one that starts inside the recipients' window
    and runs past it, and one over the other string array. *)
Definition sample_overlapping : Slice := mkSlice (Some 1%positive) 2 2.
Definition sample_elsewhere : Slice := mkSlice (Some 2%positive) 0 1.

(** * Properties *)

(** ** The response classifier *)

Ltac unfold_status_codes :=
  cbv [ResponseStatusOk ResponseStatusErrorUnspecified
       ResponseStatusErrorServiceDenied ResponseStatusErrorMessageFormatCorrupt
       ResponseStatusErrorSendingAddressUnresolved
       ResponseStatusErrorMessageNotFound ResponseStatusErrorNetworkProblem
       ResponseStatusErrorContentNotAccepted
       ResponseStatusErrorUnsupportedMessage
       ResponseStatusErrorTransientFailure
       ResponseStatusErrorTransientMaxReserved
       ResponseStatusErrorPermanentFailure
       ResponseStatusErrorPermamentMaxReserved] in *.

(** Decide every comparison of [Status] and discard the impossible branches. *)
Ltac status_cases :=
  unfold Status; unfold_status_codes;
  repeat match goal with
         | |- context [(?a =? ?b)%Z] => destruct (Z.eqb_spec a b); try lia
         | |- context [(?a <=? ?b)%Z] => destruct (Z.leb_spec a b); try lia
         end;
  simpl; try reflexivity; try lia.

(** [Status] never fails to classify: it is one of the three outcomes,
    and it is [nil] for the byte 128 only. *)
Lemma Status_nil_iff (c : MSendConf) :
  Status c = nil_error ↔ sc_ResponseStatus c = 128%Z.
Proof.
  split.
  - intros H. destruct (Z.eq_dec (sc_ResponseStatus c) 128) as [|Hne]; [done|].
    exfalso. revert H. status_cases; discriminate.
  - intros H. status_cases.
Qed.

(** C1. For every status byte [s] of a send confirmation, [Status] is
    [nil] (Ok) when [s = 128], [ErrTransient] when [s] lies in [192,223],
    [ErrPermanent] when [s] lies in [224,255], and [ErrPermanent] for every
    other byte, that is for [s] in [0,127] or in [137,191]. *)
Theorem Status_by_range (c : MSendConf) :
  (sc_ResponseStatus c = 128 → Status c = nil_error) ∧
  ((192 ≤ sc_ResponseStatus c ≤ 223)%Z → Status c = ErrTransient) ∧
  ((224 ≤ sc_ResponseStatus c ≤ 255)%Z → Status c = ErrPermanent) ∧
  ((0 ≤ sc_ResponseStatus c ≤ 127)%Z ∨ (137 ≤ sc_ResponseStatus c ≤ 191)%Z →
   Status c = ErrPermanent).
Proof.
  repeat split; intros H; status_cases.
Qed.

Lemma Status_by_range_witness :
  Status (conf_with_status 128) = nil_error ∧
  Status (conf_with_status 192) = ErrTransient ∧
  Status (conf_with_status 255) = ErrPermanent ∧
  Status (conf_with_status 0) = ErrPermanent ∧
  Status (conf_with_status 191) = ErrPermanent.
Proof.
  split; [apply (proj1 (Status_by_range (conf_with_status 128))); reflexivity|].
  split; [apply (proj1 (proj2 (Status_by_range (conf_with_status 192))));
          unfold conf_with_status; simpl; lia|].
  split; [apply (proj1 (proj2 (proj2 (Status_by_range (conf_with_status 255)))));
          unfold conf_with_status; simpl; lia|].
  split; [apply (proj2 (proj2 (proj2 (Status_by_range (conf_with_status 0)))));
          unfold conf_with_status; simpl; lia|].
  apply (proj2 (proj2 (proj2 (Status_by_range (conf_with_status 191)))));
    unfold conf_with_status; simpl; lia.
Defined.

(** C2. Each legacy code 129 to 136 is classified by the fixed table:
    129, 130 and 134 are transient; 131, 132, 133, 135 and 136 are
    permanent, whatever the other fields of the confirmation hold. *)
Theorem Status_legacy_table (ty : Z) (tid : string) (v : Z) (txt mid : string) :
  Status (mkMSendConf ty tid v 129 txt mid) = ErrTransient ∧
  Status (mkMSendConf ty tid v 130 txt mid) = ErrTransient ∧
  Status (mkMSendConf ty tid v 131 txt mid) = ErrPermanent ∧
  Status (mkMSendConf ty tid v 132 txt mid) = ErrPermanent ∧
  Status (mkMSendConf ty tid v 133 txt mid) = ErrPermanent ∧
  Status (mkMSendConf ty tid v 134 txt mid) = ErrTransient ∧
  Status (mkMSendConf ty tid v 135 txt mid) = ErrPermanent ∧
  Status (mkMSendConf ty tid v 136 txt mid) = ErrPermanent.
Proof. repeat split. Qed.

(** C9. [Status] depends on the response status byte alone: two
    confirmations with the same byte get the same outcome, whatever their
    transaction id, version, response text and message id. Taking the two
    confirmations equal, classifying a value again gives the same outcome. *)
Theorem Status_depends_on_status_byte_only (c1 c2 : MSendConf) :
  sc_ResponseStatus c1 = sc_ResponseStatus c2 → Status c1 = Status c2.
Proof. unfold Status. intros ->. reflexivity. Qed.

Lemma Status_depends_on_status_byte_only_witness :
  Status (mkMSendConf 0x81 "T1" 0x90 194 "busy" "m-1")
  = Status (mkMSendConf 0 "another" 0x93 194 "" "").
Proof. apply Status_depends_on_status_byte_only. reflexivity. Defined.

(** ** Derived responses *)

(** C3. The response derived from a notification carries the
    notification's UUID, transaction id and version, the status given and
    the report flag given. *)
Theorem NotifyResp_from_notification {dynamic : Type}
    (n : MNotificationInd dynamic) (s : Z) (r : bool) :
  let p := MNotificationInd_NewMNotifyRespInd n s r in
  nr_UUID p = ni_UUID n ∧
  nr_TransactionId p = ni_TransactionId n ∧
  nr_Version p = ni_Version n ∧
  nr_Status p = s ∧
  nr_ReportAllowed p = r.
Proof. repeat split. Qed.

(** C4. The response derived from a retrieve confirmation has status
    [STATUS_RETRIEVED] (129) whatever the confirmation holds, including its
    own status field, and carries the confirmation's UUID, transaction id
    and version. *)
Theorem NotifyResp_from_retrieve_conf {Attachment dynamic : Type}
    (c : MRetrieveConf Attachment dynamic) (r : bool) :
  let p := MRetrieveConf_NewMNotifyRespInd c r in
  nr_Status p = STATUS_RETRIEVED ∧
  STATUS_RETRIEVED = 129 ∧
  nr_UUID p = rc_UUID c ∧
  nr_TransactionId p = rc_TransactionId c ∧
  nr_Version p = rc_Version c ∧
  nr_ReportAllowed p = r.
Proof. repeat split. Qed.

(** ** The identifier generator *)

Lemma genUUID_open_error : genUUID OpenError = "1234567890ABCDEF".
Proof. reflexivity. Qed.

Lemma Read_length (r : read_result) (b : list Byte.byte) :
  length (Read r b).1 = length b.
Proof.
  unfold Read. simpl. rewrite length_app, length_drop, length_take. lia.
Qed.

(** A read that fills the buffer leaves nothing of the zeroed buffer. *)
Lemma Read_full (r : read_result) (b : list Byte.byte) :
  (length b ≤ length (rd_data r))%nat →
  (Read r b).1 = take (length b) (rd_data r).
Proof.
  intros Hlen. unfold Read. simpl.
  rewrite drop_ge; [apply app_nil_r|].
  rewrite length_take. lia.
Qed.

Lemma Sprintf_x_length (b : list Byte.byte) :
  String.length (Sprintf_x b) = (2 * length b)%nat.
Proof.
  induction b as [|x b IH]; [reflexivity|].
  change (Sprintf_x (x :: b))
    with (String (hex_digit (Byte.to_N x / 16))
            (String (hex_digit (Byte.to_N x mod 16)) (Sprintf_x b))).
  cbn [String.length]. rewrite IH. simpl. lia.
Qed.

(** When the device opens, the identifier has 32 characters, whatever the
    single read delivers. *)
Lemma genUUID_opened_length (r : read_result) :
  String.length (genUUID (Opened r)) = 32%nat.
Proof.
  unfold genUUID. pose proof (Read_length r (make_bytes 16)) as Hlen.
  destruct (Read r (make_bytes 16)) as [b n]. simpl in Hlen.
  rewrite Sprintf_x_length, Hlen. reflexivity.
Qed.

(** When the read delivers at least 16 bytes, the identifier is the
    hexadecimal form of the first 16. *)
Lemma genUUID_full_read (data : list Byte.byte) (e : bool) :
  (16 ≤ length data)%nat →
  genUUID (Opened (mkRead data e)) = Sprintf_x (take 16 data).
Proof.
  intros Hlen. unfold genUUID.
  pose proof (Read_full (mkRead data e) (make_bytes 16)) as Hfull.
  destruct (Read (mkRead data e) (make_bytes 16)) as [b n].
  simpl in Hfull. rewrite Hfull; [reflexivity|exact Hlen].
Qed.

Lemma genUUID_nonempty (random : open_result) : genUUID random ≠ "".
Proof.
  destruct random as [|r]; [discriminate|].
  intros Heq. pose proof (genUUID_opened_length r) as Hlen.
  rewrite Heq in Hlen. discriminate.
Qed.

(** C7. The open of the device succeeds and the read fails without
    delivering a byte: [genUUID] returns the hexadecimal form of the zeroed
    buffer, 32 zeros, and not the literal it returns when the open fails.
    A read that fails after delivering part of the bytes gives yet another
    identifier. *)
Theorem genUUID_read_error_not_fallback :
  genUUID (Opened (mkRead [] true)) = "00000000000000000000000000000000" ∧
  genUUID (Opened (mkRead [] true)) ≠ genUUID OpenError ∧
  genUUID (Opened (mkRead [xab; xcd] true)) = "abcd0000000000000000000000000000".
Proof. repeat split. discriminate. Qed.

(** ** The [encode] tags *)

(** C8, as the claim states it, fails: the UUID of a notification
    indication and the UUID, Cc and Attachments of a retrieve confirmation
    carry no [encode] tag. *)
Lemma encode_tag_missing_on_decoded_structs :
  encode_tag S_MNotificationInd "UUID" = Some "" ∧
  encode_tag S_MRetrieveConf "UUID" = Some "" ∧
  encode_tag S_MRetrieveConf "Cc" = Some "" ∧
  encode_tag S_MRetrieveConf "Attachments" = Some "" ∧
  encode_tag S_MNotificationInd "UUID" ≠ Some "no".
Proof. repeat split. discriminate. Qed.

(** C8, amended. On the two structs that carry [encode] tags, [MSendReq]
    and [MNotifyRespInd], the UUID, and on [MSendReq] also Cc, Bcc and
    Attachments, are tagged [no]; these five are all the fields tagged
    [no]; no field of the three other structs carries an [encode] tag. *)
Theorem encode_no_fields :
  encode_tag S_MSendReq "UUID" = Some "no" ∧
  encode_tag S_MSendReq "Cc" = Some "no" ∧
  encode_tag S_MSendReq "Bcc" = Some "no" ∧
  encode_tag S_MSendReq "Attachments" = Some "no" ∧
  encode_tag S_MNotifyRespInd "UUID" = Some "no" ∧
  excluded_fields =
    [(S_MSendReq, "UUID"); (S_MSendReq, "Cc"); (S_MSendReq, "Bcc");
     (S_MSendReq, "Attachments"); (S_MNotifyRespInd, "UUID")] ∧
  Forall (λ tf, tf.1 = S_MSendReq ∨ tf.1 = S_MNotifyRespInd) tagged_fields.
Proof.
  repeat split.
  unfold tagged_fields. simpl.
  repeat first [apply List.Forall_nil | apply List.Forall_cons; [simpl; auto|]].
Qed.

(** ** The loop over the recipients *)

Section RangeAppend.
Implicit Types (m : gmap loc (list string)) (s : Slice) (arr : list string).

Lemma alter_as_insert {A} (f : A → A) (l : list A) (i : nat) (v : A) :
  l !! i = Some v → <[i := f v]> l = alter f i l.
Proof.
  intros Hv. apply list_eq. intros j.
  destruct (decide (i = j)) as [<-|Hne].
  - rewrite list_lookup_alter_eq, Hv.
    apply list_lookup_insert_eq. apply lookup_lt_is_Some. eauto.
  - rewrite list_lookup_alter_ne, list_lookup_insert_ne; done.
Qed.

Lemma bumped_cons s arr i idx :
  bumped s arr (i :: idx) = bumped s (alter with_plmn (sl_off s + i)%nat arr) idx.
Proof. reflexivity. Qed.

Lemma bumped_length s idx arr : length (bumped s arr idx) = length arr.
Proof.
  revert arr. induction idx as [|i idx IH]; intros arr; [reflexivity|].
  rewrite bumped_cons, IH. apply length_alter.
Qed.

Lemma bumped_lookup s n k arr j :
  bumped s arr (seq k n) !! j =
    if decide (sl_off s + k ≤ j < sl_off s + k + n)%nat
    then with_plmn <$> arr !! j else arr !! j.
Proof.
  revert k arr. induction n as [|n IH]; intros k arr.
  - simpl. case_decide; [lia|done].
  - cbn [seq]. rewrite bumped_cons, IH.
    destruct (decide (sl_off s + k = j)%nat) as [<-|Hne].
    + rewrite list_lookup_alter_eq. repeat case_decide; try lia; done.
    + rewrite list_lookup_alter_ne by done.
      repeat case_decide; try lia; done.
Qed.

Lemma range_append_array s a idx : ∀ m arr,
  sl_array s = Some a →
  m !! a = Some arr →
  Forall (λ i, i < sl_len s ∧ sl_off s + i < length arr)%nat idx →
  range_append m s idx = Some (<[a := bumped s arr idx]> m).
Proof.
  induction idx as [|i idx IH]; intros m arr Ha Hm Hidx.
  - simpl. by rewrite insert_id.
  - apply Forall_cons in Hidx as [[Hi Hlt] Hidx].
    destruct (lookup_lt_is_Some_2 arr (sl_off s + i)%nat Hlt) as [v Hv].
    cbn [range_append]. unfold index_get, index_set.
    rewrite Ha. simpl. rewrite Hm. simpl.
    rewrite decide_True by done. rewrite Hv. simpl.
    rewrite !decide_True by done. simpl.
    rewrite (IH _ (<[(sl_off s + i)%nat := with_plmn v]> arr)).
    + rewrite insert_insert_eq, (alter_as_insert _ _ _ _ Hv).
      by rewrite ?bumped_cons.
    + done.
    + apply lookup_insert_eq.
    + by rewrite length_insert.
Qed.
End RangeAppend.

(** ** Reading through a slice *)

Section SliceElems.
Context {A : Type}.
Implicit Types (m : gmap loc (list A)) (s : Slice) (arr : list A).

Lemma index_get_array m s a arr i :
  sl_array s = Some a → m !! a = Some arr → (i < sl_len s)%nat →
  index_get m s i = arr !! (sl_off s + i)%nat.
Proof.
  intros Ha Hm Hi. unfold index_get.
  rewrite decide_True by done. rewrite Ha. simpl. by rewrite Hm.
Qed.

Lemma index_get_cell m s i :
  (i < sl_len s)%nat →
  index_get m s i = a ← sl_array s; cell m a (sl_off s + i)%nat.
Proof. intros Hi. unfold index_get. by rewrite decide_True. Qed.

Lemma slice_elems_empty m s : sl_len s = 0%nat → slice_elems m s = Some [].
Proof. intros Hlen. unfold slice_elems. by rewrite Hlen. Qed.

Lemma slice_elems_array m s a arr :
  sl_array s = Some a → m !! a = Some arr →
  (sl_off s + sl_len s ≤ length arr)%nat →
  slice_elems m s = Some (take (sl_len s) (drop (sl_off s) arr)).
Proof.
  intros Ha Hm Hlen. apply mapM_Some_2, Forall2_same_length_lookup_2.
  - rewrite length_seq, length_take, length_drop. lia.
  - intros i x y Hx Hy. apply lookup_seq in Hx as [-> Hi]. simpl.
    rewrite (index_get_array m s a arr) by done.
    rewrite lookup_take_lt, lookup_drop in Hy by done. done.
Qed.

Lemma slice_elems_inv m s orig :
  slice_elems m s = Some orig →
  (sl_len s = 0%nat ∧ orig = []) ∨
  ∃ a arr, sl_array s = Some a ∧ m !! a = Some arr ∧
           (sl_off s + sl_len s ≤ length arr)%nat ∧
           orig = take (sl_len s) (drop (sl_off s) arr).
Proof.
  intros Helems. destruct (sl_len s) as [|n] eqn:Hn.
  - left. rewrite (slice_elems_empty m s Hn) in Helems. by injection Helems.
  - right. pose proof (mapM_Some_1 _ _ _ Helems) as Hall.
    destruct (Forall2_lookup_l _ _ _ n n Hall) as [y [_ Hy]].
    { rewrite Hn. apply lookup_seq_lt. lia. }
    unfold index_get in Hy. rewrite decide_True in Hy by lia.
    destruct (sl_array s) as [a|] eqn:Ha; [|done]. simpl in Hy.
    destruct (m !! a) as [arr|] eqn:Hm; [|done]. simpl in Hy.
    apply lookup_lt_Some in Hy.
    exists a, arr. split_and!; [done|done|lia|].
    rewrite (slice_elems_array m s a arr) in Helems by (done || lia).
    rewrite Hn in Helems. by injection Helems.
Qed.

Lemma slice_elems_lookup m s orig :
  slice_elems m s = Some orig →
  length orig = sl_len s ∧
  ∀ i, (i < sl_len s)%nat → index_get m s i = orig !! i.
Proof.
  intros Helems. pose proof (mapM_Some_1 _ _ _ Helems) as Hall.
  split.
  - apply Forall2_length in Hall. by rewrite length_seq in Hall.
  - intros i Hi.
    destruct (Forall2_lookup_l _ _ _ i i Hall) as [y [Hy Hget]].
    { by apply lookup_seq_lt. }
    by rewrite Hget, Hy.
Qed.
End SliceElems.

Lemma range_append_spec (m : gmap loc (list string)) (s : Slice)
    (orig : list string) :
  slice_elems m s = Some orig →
  ∃ m', range_append m s (seq 0 (sl_len s)) = Some m' ∧
        slice_elems m' s = Some (with_plmn <$> orig) ∧
        (∀ l, length <$> m' !! l = length <$> m !! l) ∧
        (∀ l j, cell m' l j =
                if decide (in_window s l j)
                then with_plmn <$> cell m l j else cell m l j).
Proof.
  intros Helems.
  destruct (slice_elems_inv m s orig Helems)
    as [[Hlen ->]|(a & arr & Ha & Hm & Hlen & ->)].
  - exists m. rewrite Hlen. split_and!; [done| |done|].
    + by apply slice_elems_empty.
    + intros l j. rewrite decide_False; [done|].
      unfold in_window. lia.
  - exists (<[a := bumped s arr (seq 0 (sl_len s))]> m). split_and!.
    + apply range_append_array; [done|done|].
      apply Forall_forall. intros i Hi%elem_of_seq. lia.
    + rewrite (slice_elems_array _ s a (bumped s arr (seq 0 (sl_len s)))).
      * f_equal. apply list_eq. intros i. rewrite list_lookup_fmap.
        destruct (decide (i < sl_len s)%nat) as [Hi|Hi].
        -- rewrite !lookup_take_lt, !lookup_drop, bumped_lookup by done.
           rewrite decide_True by lia. done.
        -- rewrite !lookup_take_ge by lia. done.
      * done.
      * apply lookup_insert_eq.
      * by rewrite bumped_length.
    + intros l. destruct (decide (a = l)) as [<-|Hne].
      * rewrite lookup_insert_eq, Hm. simpl. by rewrite bumped_length.
      * by rewrite lookup_insert_ne.
    + intros l j. unfold cell. destruct (decide (a = l)) as [<-|Hne].
      * rewrite lookup_insert_eq, Hm. simpl. rewrite bumped_lookup.
        destruct (decide (sl_off s + 0 ≤ j < sl_off s + 0 + sl_len s)%nat)
          as [Hin|Hout].
        -- rewrite decide_True; [done|]. split; [done|lia].
        -- rewrite decide_False; [done|]. intros [_ Hj]. lia.
      * rewrite lookup_insert_ne by done.
        rewrite decide_False; [done|].
        intros [Heq _]. congruence.
Qed.

(** ** [NewMSendReq] *)

Section NewMSendReq.
Context {Attachment : Type}.
Implicit Types (h : Heap Attachment) (recipients attachments : Slice).

(** When the recipients slice is readable, the call returns: the loop
    and the join both succeed, and the result is determined. *)
Lemma NewMSendReq_returns random h recipients attachments orig :
  slice_elems (h_strings h) recipients = Some orig →
  ∃ strs p,
    NewMSendReq random h recipients attachments
      = Some (mkHeap strs (h_attptrs h) (h_attachments h), p) ∧
    range_append (h_strings h) recipients (seq 0 (sl_len recipients))
      = Some strs ∧
    sr_UUID p = genUUID random ∧
    sr_Type p = TYPE_SEND_REQ ∧
    sr_TransactionId p = genUUID random ∧
    sr_Version p = MMS_MESSAGE_VERSION_1_3 ∧
    sr_To p = Join (with_plmn <$> orig) "," ∧
    sr_ContentType p = "application/vnd.wap.multipart.related" ∧
    sr_Attachments p = attachments.
Proof.
  intros Helems.
  destruct (range_append_spec _ _ _ Helems) as (strs & Hloop & Hafter & _).
  unfold NewMSendReq. rewrite Hloop. simpl. rewrite Hafter. simpl.
  eexists _, _. split; [reflexivity|]. by split_and!.
Qed.

(** C5. For every recipient list [orig] held by the caller's slice,
    [NewMSendReq] returns a request whose To field is the comma-join, in
    order, of the recipients each followed by [/TYPE=PLMN]; its
    transaction id equals its UUID and both are non-empty; its version
    is 1.3, the highest of the version codes; its content type is the
    multipart-related media type. *)
Theorem NewMSendReq_fields random h recipients attachments orig :
  slice_elems (h_strings h) recipients = Some orig →
  ∃ h' p,
    NewMSendReq random h recipients attachments = Some (h', p) ∧
    sr_To p = Join ((λ r, r +:+ "/TYPE=PLMN") <$> orig) "," ∧
    sr_TransactionId p = sr_UUID p ∧
    sr_UUID p ≠ "" ∧
    sr_TransactionId p ≠ "" ∧
    sr_Version p = MMS_MESSAGE_VERSION_1_3 ∧
    Forall (λ v, (v ≤ sr_Version p)%Z)
      [MMS_MESSAGE_VERSION_1_0; MMS_MESSAGE_VERSION_1_1;
       MMS_MESSAGE_VERSION_1_2; MMS_MESSAGE_VERSION_1_3] ∧
    sr_ContentType p = "application/vnd.wap.multipart.related".
Proof.
  intros Helems.
  destruct (NewMSendReq_returns random h recipients attachments orig Helems)
    as (strs & p & Hcall & _ & Huuid & _ & Htid & Hver & Hto & Hct & _).
  exists (mkHeap strs (h_attptrs h) (h_attachments h)), p.
  split_and!; try done.
  - congruence.
  - rewrite Huuid. apply genUUID_nonempty.
  - rewrite Htid. apply genUUID_nonempty.
  - rewrite Hver. repeat constructor; done.
Qed.

(** C6, amended. With an empty recipient list the call is not rejected:
    it returns a send request whose To field is the empty string, and
    leaves the heap as it was. *)
Theorem NewMSendReq_empty_recipients random h recipients attachments :
  sl_len recipients = 0%nat →
  ∃ p, NewMSendReq random h recipients attachments = Some (h, p) ∧
       sr_Type p = TYPE_SEND_REQ ∧
       sr_To p = "" ∧
       sr_UUID p = genUUID random ∧
       sr_TransactionId p = genUUID random.
Proof.
  intros Hlen. unfold NewMSendReq, slice_elems. rewrite Hlen. simpl.
  destruct h as [strs ptrs atts]. simpl.
  eexists. split; [reflexivity|]. by split_and!.
Qed.

(** C10. The call rewrites the caller's recipients in place and touches
    nothing else. After it, the caller's slice holds every original
    entry followed by [/TYPE=PLMN]; every slot of every string array
    outside the window of that slice holds what it held; no array is
    added, removed or resized; the attachment arrays and the attachments
    are the same; and the request holds the caller's attachments slice. *)
Theorem NewMSendReq_mutates_recipients_only
    random h recipients attachments orig :
  slice_elems (h_strings h) recipients = Some orig →
  ∃ h' p,
    NewMSendReq random h recipients attachments = Some (h', p) ∧
    slice_elems (h_strings h') recipients
      = Some ((λ r, r +:+ "/TYPE=PLMN") <$> orig) ∧
    (∀ i r, orig !! i = Some r →
            index_get (h_strings h') recipients i
              = Some (r +:+ "/TYPE=PLMN")) ∧
    (∀ l j, ¬ in_window recipients l j →
            cell (h_strings h') l j = cell (h_strings h) l j) ∧
    (∀ l, length <$> h_strings h' !! l = length <$> h_strings h !! l) ∧
    h_attptrs h' = h_attptrs h ∧
    h_attachments h' = h_attachments h ∧
    sr_Attachments p = attachments.
Proof.
  intros Helems.
  destruct (NewMSendReq_returns random h recipients attachments orig Helems)
    as (strs & p & Hcall & Hloop & _ & _ & _ & _ & _ & _ & Hatt).
  destruct (range_append_spec _ _ _ Helems)
    as (strs' & Hloop' & Hafter & Hsize & Hcell).
  assert (strs' = strs) as -> by congruence.
  exists (mkHeap strs (h_attptrs h) (h_attachments h)), p.
  split_and!; try done.
  - intros i r Hr. simpl.
    destruct (slice_elems_lookup _ _ _ Hafter) as [Hlen Hget].
    rewrite length_fmap in Hlen.
    rewrite Hget, list_lookup_fmap, Hr; [done|].
    rewrite <- Hlen. apply lookup_lt_is_Some. eauto.
  - intros l j Hout. simpl. rewrite Hcell. by rewrite decide_False.
Qed.
End NewMSendReq.

(** ** [NewMSendReq] on the sample inputs *)

Example Join_one : Join ["555-1234/TYPE=PLMN"] "," = "555-1234/TYPE=PLMN".
Proof. reflexivity. Qed.

Example Join_two :
  Join (with_plmn <$> ["a"; "b"]) "," = "a/TYPE=PLMN,b/TYPE=PLMN".
Proof. reflexivity. Qed.

Lemma NewMSendReq_fields_witness :
  ∃ h' p,
    NewMSendReq OpenError sample_heap sample_recipients sample_attachments
      = Some (h', p) ∧
    sr_To p = "a/TYPE=PLMN,b/TYPE=PLMN" ∧
    sr_TransactionId p = sr_UUID p ∧
    sr_UUID p ≠ "" ∧
    sr_TransactionId p ≠ "" ∧
    sr_Version p = 0x93%Z ∧
    Forall (λ v, (v ≤ sr_Version p)%Z) [0x90; 0x91; 0x92; 0x93]%Z ∧
    sr_ContentType p = "application/vnd.wap.multipart.related".
Proof.
  exact (NewMSendReq_fields OpenError sample_heap sample_recipients
           sample_attachments ["a"; "b"] eq_refl).
Defined.

(** C6, as the claim states it, fails: the call on the nil slice returns
    a send request, with an empty To field, and no error. *)
Lemma NewMSendReq_accepts_no_recipients :
  sl_len nil_slice = 0%nat ∧
  ∃ p, NewMSendReq OpenError sample_heap nil_slice nil_slice
         = Some (sample_heap, p) ∧
       sr_Type p = 0x80%Z ∧
       sr_To p = "" ∧
       sr_UUID p = "1234567890ABCDEF".
Proof.
  split; [reflexivity|]. eexists. split; [reflexivity|]. by split_and!.
Qed.

Lemma NewMSendReq_empty_recipients_witness :
  ∃ p, NewMSendReq (Opened (mkRead [] false)) sample_heap
         sample_no_recipients sample_attachments = Some (sample_heap, p) ∧
       sr_Type p = 0x80%Z ∧
       sr_To p = "" ∧
       sr_UUID p = "00000000000000000000000000000000" ∧
       sr_TransactionId p = "00000000000000000000000000000000".
Proof.
  exact (NewMSendReq_empty_recipients (Opened (mkRead [] false)) sample_heap
           sample_no_recipients sample_attachments eq_refl).
Defined.

Lemma NewMSendReq_mutates_recipients_only_witness :
  ∃ h' p,
    NewMSendReq OpenError sample_heap sample_recipients sample_attachments
      = Some (h', p) ∧
    slice_elems (h_strings h') sample_recipients
      = Some ["a/TYPE=PLMN"; "b/TYPE=PLMN"] ∧
    cell (h_strings h') 1%positive 0 = Some "x" ∧
    cell (h_strings h') 1%positive 3 = Some "y" ∧
    cell (h_strings h') 2%positive 0 = Some "z" ∧
    h_attptrs h' = h_attptrs sample_heap ∧
    h_attachments h' = h_attachments sample_heap ∧
    sr_Attachments p = sample_attachments.
Proof.
  destruct (NewMSendReq_mutates_recipients_only OpenError sample_heap
              sample_recipients sample_attachments ["a"; "b"] eq_refl)
    as (h' & p & Hcall & Helems & _ & Hcell & _ & Hptrs & Hatts & Hp).
  exists h', p. split_and!; try done.
  - rewrite Hcell; [reflexivity|]. unfold in_window. simpl. lia.
  - rewrite Hcell; [reflexivity|]. unfold in_window. simpl. lia.
  - rewrite Hcell; [reflexivity|]. unfold in_window. simpl.
    intros [Heq _]. discriminate.
Defined.

(** * Further properties of the package *)

(** ** The classifier, as sets of codes *)

(** X1. [Status] is [nil] for the byte 128 and for no other value: a
    confirmation is a success exactly when its response status is Ok. *)
Theorem Status_nil_exactly_ok (c : MSendConf) :
  Status c = nil_error ↔ sc_ResponseStatus c = ResponseStatusOk.
Proof. apply Status_nil_iff. Qed.

(** X2. [Status] is [ErrTransient] exactly for the codes 129, 130 and 134
    and for the range 192 to 223; every other value but 128 is
    [ErrPermanent]. *)
Theorem Status_transient_iff (c : MSendConf) :
  (Status c = ErrTransient ↔
     sc_ResponseStatus c = 129 ∨ sc_ResponseStatus c = 130 ∨
     sc_ResponseStatus c = 134 ∨ (192 ≤ sc_ResponseStatus c ≤ 223)%Z) ∧
  (Status c = ErrPermanent ↔
     sc_ResponseStatus c ≠ 128 ∧ sc_ResponseStatus c ≠ 129 ∧
     sc_ResponseStatus c ≠ 130 ∧ sc_ResponseStatus c ≠ 134 ∧
     ¬ (192 ≤ sc_ResponseStatus c ≤ 223)%Z).
Proof.
  split; split.
  - intros H. revert H. status_cases; (discriminate || (intros _; lia)).
  - intros H. status_cases.
  - intros H. revert H. status_cases; (discriminate || (intros _; lia)).
  - intros H. status_cases.
Qed.

(** ** The identifier generator: shape and uniqueness *)

Lemma Sprintf_x_cons (x : Byte.byte) (b : list Byte.byte) :
  Sprintf_x (x :: b)
  = String (hex_digit (Byte.to_N x / 16))
      (String (hex_digit (Byte.to_N x mod 16)) (Sprintf_x b)).
Proof. reflexivity. Qed.

Lemma hex_digit_lower (n : N) : is_lower_hex (hex_digit n) = true.
Proof.
  destruct n as [|p]; [reflexivity|].
  do 4 (destruct p as [p|p|]; try reflexivity).
Qed.

Lemma hex_digit_inj (n k : N) :
  (n < 16)%N → (k < 16)%N → hex_digit n = hex_digit k → n = k.
Proof.
  intros Hn Hk.
  destruct n as [|p]; [|do 4 (try (destruct p as [p|p|]; try lia))];
    (destruct k as [|q]; [|do 4 (try (destruct q as [q|q|]; try lia))]);
    intros Heq; try reflexivity; discriminate Heq.
Qed.

Lemma to_N_inj (x y : Byte.byte) : Byte.to_N x = Byte.to_N y → x = y.
Proof.
  intros Heq. pose proof (Byte.of_to_N x) as Hx.
  rewrite Heq, Byte.of_to_N in Hx. by injection Hx.
Qed.

Lemma hex_pair_inj (x y : Byte.byte) :
  hex_digit (Byte.to_N x / 16) = hex_digit (Byte.to_N y / 16) →
  hex_digit (Byte.to_N x mod 16) = hex_digit (Byte.to_N y mod 16) →
  x = y.
Proof.
  intros Hhi Hlo. apply to_N_inj.
  pose proof (Byte.to_N_bounded x) as Hx.
  pose proof (Byte.to_N_bounded y) as Hy.
  apply hex_digit_inj in Hhi;
    [|apply N.Div0.div_lt_upper_bound; lia
     |apply N.Div0.div_lt_upper_bound; lia].
  apply hex_digit_inj in Hlo; [|apply N.mod_lt; lia|apply N.mod_lt; lia].
  rewrite (N.div_mod (Byte.to_N x) 16), (N.div_mod (Byte.to_N y) 16) by lia.
  by rewrite Hhi, Hlo.
Qed.

(** The hexadecimal form determines the bytes. *)
Lemma Sprintf_x_inj (b1 b2 : list Byte.byte) :
  Sprintf_x b1 = Sprintf_x b2 → b1 = b2.
Proof.
  revert b2. induction b1 as [|x b1 IH]; intros [|y b2] Heq;
    [reflexivity|discriminate Heq|discriminate Heq|].
  rewrite !Sprintf_x_cons in Heq. injection Heq as Hhi Hlo Hrest.
  f_equal; [by apply hex_pair_inj|by apply IH].
Qed.

Lemma Sprintf_x_lower (b : list Byte.byte) :
  string_forallb is_lower_hex (Sprintf_x b) = true.
Proof.
  induction b as [|x b IH]; [reflexivity|].
  rewrite Sprintf_x_cons. cbn [string_forallb].
  by rewrite !hex_digit_lower, IH.
Qed.

(** The buffer [genUUID] formats: the delivered bytes, cut at 16, then
    what is left of the zeroed buffer. *)
Lemma genUUID_opened (r : read_result) :
  genUUID (Opened r)
  = Sprintf_x (take 16 (rd_data r)
               ++ replicate (16 - length (rd_data r)) x00).
Proof.
  unfold genUUID, Read, make_bytes. rewrite length_replicate.
  f_equal. f_equal. rewrite length_take, drop_replicate. f_equal. lia.
Qed.

(** X3. Whenever the device opens, the identifier has exactly 32
    characters, all of them lower-case hexadecimal digits, whatever the
    read delivers and whether or not it reports an error. *)
Theorem genUUID_opened_shape (r : read_result) :
  String.length (genUUID (Opened r)) = 32%nat ∧
  string_forallb is_lower_hex (genUUID (Opened r)) = true.
Proof.
  split; [apply genUUID_opened_length|].
  rewrite genUUID_opened. apply Sprintf_x_lower.
Qed.

(** X4. A read that delivers fewer than 16 bytes is not detected: the
    identifier is the hexadecimal form of the bytes delivered followed by
    zeros for the bytes that are missing. Bytes delivered beyond the
    sixteenth do not count, and the error flag of the read never does. *)
Theorem genUUID_zero_padded (data : list Byte.byte) (e : bool) :
  genUUID (Opened (mkRead data e))
  = Sprintf_x (take 16 data) +:+
    Sprintf_x (replicate (16 - length data) x00).
Proof.
  rewrite genUUID_opened. simpl rd_data.
  induction (take 16 data) as [|x l IH]; [reflexivity|].
  cbn [app]. rewrite !Sprintf_x_cons, IH. reflexivity.
Qed.

(** X5. Two reads that each deliver at least 16 bytes give the same
    identifier only if their first 16 bytes are the same: the hexadecimal
    form loses nothing. *)
Theorem genUUID_injective (d1 d2 : list Byte.byte) (e1 e2 : bool) :
  (16 ≤ length d1)%nat → (16 ≤ length d2)%nat →
  genUUID (Opened (mkRead d1 e1)) = genUUID (Opened (mkRead d2 e2)) →
  take 16 d1 = take 16 d2.
Proof.
  intros H1 H2. rewrite !genUUID_full_read by done. apply Sprintf_x_inj.
Qed.

Lemma genUUID_injective_witness :
  take 16 (replicate 16 x2a ++ [xff]) = take 16 (replicate 16 x2a).
Proof.
  apply (genUUID_injective (replicate 16 x2a ++ [xff]) (replicate 16 x2a)
           true false); [simpl; lia|simpl; lia|reflexivity].
Defined.

(** X6. The literal returned when the open fails is never returned when
    the device opens, so a caller can tell the degraded mode from the
    identifier alone. *)
Theorem genUUID_opened_not_fallback (r : read_result) :
  genUUID (Opened r) ≠ genUUID OpenError.
Proof.
  intros Heq. pose proof (genUUID_opened_length r) as Hlen.
  rewrite Heq in Hlen. discriminate Hlen.
Qed.

(** ** [NewMSendReq]: aliasing, repetition, the To field *)

(** What any slice reads after the loop, slot by slot. *)
Lemma range_append_index_get (m m' : gmap loc (list string))
    (s other : Slice) (orig : list string) (i : nat) :
  slice_elems m s = Some orig →
  range_append m s (seq 0 (sl_len s)) = Some m' →
  index_get m' other i =
    if decide (shares_slot s other i)
    then with_plmn <$> index_get m other i
    else index_get m other i.
Proof.
  intros Helems Hloop.
  destruct (range_append_spec _ _ _ Helems) as (m2 & Hloop2 & _ & _ & Hcell).
  assert (m2 = m') as -> by congruence.
  unfold index_get. destruct (decide (i < sl_len other)%nat) as [Hi|Hi].
  - destruct (sl_array other) as [a|] eqn:Ha; simpl.
    + change (arr ← m' !! a; arr !! (sl_off other + i)%nat)
        with (cell m' a (sl_off other + i)%nat).
      change (arr ← m !! a; arr !! (sl_off other + i)%nat)
        with (cell m a (sl_off other + i)%nat).
      rewrite Hcell.
      destruct (decide (in_window s a (sl_off other + i))) as [Hin|Hout].
      * rewrite decide_True; [done|]. destruct Hin as [Harr Hwin].
        split; [congruence|done].
      * rewrite decide_False; [done|]. intros [Harr Hwin]. apply Hout.
        split; [congruence|done].
    + by destruct (decide _).
  - by destruct (decide _).
Qed.

Lemma app_assoc_string (a b c : string) : (a +:+ b) +:+ c = a +:+ (b +:+ c).
Proof.
  induction a as [|x a IH]; [reflexivity|].
  change (String x ((a +:+ b) +:+ c) = String x (a +:+ (b +:+ c))).
  by rewrite IH.
Qed.

Lemma with_plmn_nonempty (r : string) : with_plmn r ≠ "".
Proof. destruct r; discriminate. Qed.

Lemma Join_empty_inv (elems : list string) (sep : string) :
  Forall (λ e, e ≠ "") elems → Join elems sep = "" → elems = [].
Proof.
  intros Hall Hjoin. destruct elems as [|e rest]; [reflexivity|].
  apply Forall_cons in Hall as [He _]. exfalso.
  destruct e as [|c e]; [done|].
  cbn [Join] in Hjoin. destruct rest; discriminate Hjoin.
Qed.

Section NewMSendReqMore.
Context {Attachment : Type}.
Implicit Types (h : Heap Attachment) (recipients attachments other : Slice).

(** X7. Aliasing. After the call, any slice of the caller, whether or not
    it is the one passed in, reads at each index either the old element
    followed by [/TYPE=PLMN], when that element is stored in a slot of the
    recipients slice, or the old element unchanged. *)
Theorem NewMSendReq_seen_through_any_slice
    random h recipients attachments orig other :
  slice_elems (h_strings h) recipients = Some orig →
  ∃ h' p,
    NewMSendReq random h recipients attachments = Some (h', p) ∧
    ∀ i, index_get (h_strings h') other i =
           if decide (shares_slot recipients other i)
           then (λ r, r +:+ "/TYPE=PLMN") <$> index_get (h_strings h) other i
           else index_get (h_strings h) other i.
Proof.
  intros Helems.
  destruct (NewMSendReq_returns random h recipients attachments orig Helems)
    as (strs & p & Hcall & Hloop & _).
  eexists _, p. split; [exact Hcall|]. intros i. simpl.
  apply (range_append_index_get _ _ _ _ orig); done.
Qed.

(** X8. A slice that has no slot in common with the recipients slice, be
    it over another array or over another part of the same array, holds
    after the call the elements it held before. *)
Theorem NewMSendReq_disjoint_slice_unchanged
    random h recipients attachments orig other :
  slice_elems (h_strings h) recipients = Some orig →
  disjoint_slices recipients other →
  ∃ h' p,
    NewMSendReq random h recipients attachments = Some (h', p) ∧
    slice_elems (h_strings h') other = slice_elems (h_strings h) other.
Proof.
  intros Helems Hdisj.
  destruct (NewMSendReq_returns random h recipients attachments orig Helems)
    as (strs & p & Hcall & Hloop & _).
  eexists _, p. split; [exact Hcall|]. simpl.
  unfold slice_elems. apply mapM_ext. intros i.
  rewrite (range_append_index_get _ _ _ _ orig i Helems Hloop).
  destruct (decide (shares_slot recipients other i)) as [[Harr Hwin]|]; [|done].
  unfold index_get. destruct (decide (i < sl_len other)%nat) as [Hi|]; [|done].
  exfalso. destruct Hdisj as [Hne|[Hlt|Hgt]]; [done|lia|lia].
Qed.

(** X9. The call is not idempotent on the caller's slice: a second
    request built from the same slice finds the rewritten entries and
    appends the qualifier again, so its To field carries
    [/TYPE=PLMN/TYPE=PLMN] after every recipient. *)
Theorem NewMSendReq_twice
    random1 random2 h recipients attachments1 attachments2 orig :
  slice_elems (h_strings h) recipients = Some orig →
  ∃ h1 p1 h2 p2,
    NewMSendReq random1 h recipients attachments1 = Some (h1, p1) ∧
    NewMSendReq random2 h1 recipients attachments2 = Some (h2, p2) ∧
    sr_To p1 = Join ((λ r, r +:+ "/TYPE=PLMN") <$> orig) "," ∧
    sr_To p2 = Join ((λ r, r +:+ "/TYPE=PLMN/TYPE=PLMN") <$> orig) "," ∧
    slice_elems (h_strings h2) recipients
      = Some ((λ r, r +:+ "/TYPE=PLMN/TYPE=PLMN") <$> orig).
Proof.
  intros Helems.
  destruct (NewMSendReq_returns random1 h recipients attachments1 orig Helems)
    as (strs1 & p1 & Hcall1 & Hloop1 & _ & _ & _ & _ & Hto1 & _).
  destruct (range_append_spec _ _ _ Helems) as (m1 & Hm1 & Hafter1 & _).
  assert (m1 = strs1) as -> by congruence.
  set (h1 := mkHeap strs1 (h_attptrs h) (h_attachments h)) in *.
  destruct (NewMSendReq_returns random2 h1 recipients attachments2 _ Hafter1)
    as (strs2 & p2 & Hcall2 & Hloop2 & _ & _ & _ & _ & Hto2 & _).
  destruct (range_append_spec _ _ _ Hafter1) as (m2 & Hm2 & Hafter2 & _).
  assert (m2 = strs2) as -> by (simpl in Hloop2; congruence).
  assert (with_plmn <$> (with_plmn <$> orig)
          = (λ r, r +:+ "/TYPE=PLMN/TYPE=PLMN") <$> orig) as Htwice.
  { rewrite <- list_fmap_compose. apply list_fmap_ext. intros _ r _.
    simpl. unfold with_plmn. apply app_assoc_string. }
  exists h1, p1, (mkHeap strs2 (h_attptrs h1) (h_attachments h1)), p2.
  split_and!; [done|exact Hcall2|done| |].
  - by rewrite Hto2, Htwice.
  - simpl. by rewrite Hafter2, Htwice.
Qed.

(** X10. The To field of the request is empty exactly when the caller
    passed no recipient: an empty list goes through the constructor and
    can be told from the result. *)
Theorem NewMSendReq_To_empty_iff random h recipients attachments orig :
  slice_elems (h_strings h) recipients = Some orig →
  ∃ h' p,
    NewMSendReq random h recipients attachments = Some (h', p) ∧
    (sr_To p = "" ↔ orig = []).
Proof.
  intros Helems.
  destruct (NewMSendReq_returns random h recipients attachments orig Helems)
    as (strs & p & Hcall & _ & _ & _ & _ & _ & Hto & _).
  eexists _, p. split; [exact Hcall|]. rewrite Hto. split.
  - intros Hjoin. apply Join_empty_inv in Hjoin.
    + by apply fmap_nil_inv in Hjoin.
    + apply Forall_fmap, Forall_forall. intros r _. apply with_plmn_nonempty.
  - by intros ->.
Qed.

(** X11. While the device cannot be opened, every send request gets the
    same UUID and transaction id, the literal, and every notification
    indication created gets that UUID as well. *)
Theorem degraded_mode_identifiers_collide {dynamic : Type}
    h recipients attachments orig :
  slice_elems (h_strings h) recipients = Some orig →
  ∃ h' p,
    NewMSendReq OpenError h recipients attachments = Some (h', p) ∧
    sr_UUID p = "1234567890ABCDEF" ∧
    sr_TransactionId p = "1234567890ABCDEF" ∧
    ni_UUID (NewMNotificationInd (dynamic := dynamic) OpenError) = sr_UUID p.
Proof.
  intros Helems.
  destruct (NewMSendReq_returns OpenError h recipients attachments orig Helems)
    as (strs & p & Hcall & _ & Huuid & _ & Htid & _).
  eexists _, p. split; [exact Hcall|]. by rewrite Huuid, Htid.
Qed.
End NewMSendReqMore.

Lemma NewMSendReq_seen_through_any_slice_witness :
  ∃ h' p,
    NewMSendReq OpenError sample_heap sample_recipients sample_attachments
      = Some (h', p) ∧
    index_get (h_strings h') sample_overlapping 0 = Some "b/TYPE=PLMN" ∧
    index_get (h_strings h') sample_overlapping 1 = Some "y".
Proof.
  destruct (NewMSendReq_seen_through_any_slice OpenError sample_heap
              sample_recipients sample_attachments ["a"; "b"]
              sample_overlapping eq_refl)
    as (h' & p & Hcall & Hget).
  exists h', p. split; [exact Hcall|].
  split; rewrite Hget; reflexivity.
Defined.

Lemma NewMSendReq_disjoint_slice_unchanged_witness :
  ∃ h' p,
    NewMSendReq OpenError sample_heap sample_recipients sample_attachments
      = Some (h', p) ∧
    slice_elems (h_strings h') sample_elsewhere = Some ["z"].
Proof.
  apply (NewMSendReq_disjoint_slice_unchanged OpenError sample_heap
           sample_recipients sample_attachments ["a"; "b"] sample_elsewhere).
  - reflexivity.
  - left. discriminate.
Defined.

Lemma NewMSendReq_twice_witness :
  ∃ h1 p1 h2 p2,
    NewMSendReq OpenError sample_heap sample_recipients sample_attachments
      = Some (h1, p1) ∧
    NewMSendReq OpenError h1 sample_recipients nil_slice = Some (h2, p2) ∧
    sr_To p1 = "a/TYPE=PLMN,b/TYPE=PLMN" ∧
    sr_To p2 = "a/TYPE=PLMN/TYPE=PLMN,b/TYPE=PLMN/TYPE=PLMN" ∧
    slice_elems (h_strings h2) sample_recipients
      = Some ["a/TYPE=PLMN/TYPE=PLMN"; "b/TYPE=PLMN/TYPE=PLMN"].
Proof.
  exact (NewMSendReq_twice OpenError OpenError sample_heap sample_recipients
           sample_attachments nil_slice ["a"; "b"] eq_refl).
Defined.

Lemma NewMSendReq_To_empty_iff_witness :
  ∃ h' p,
    NewMSendReq OpenError sample_heap sample_recipients sample_attachments
      = Some (h', p) ∧
    (sr_To p = "" ↔ ["a"; "b"] = @nil string).
Proof.
  exact (NewMSendReq_To_empty_iff OpenError sample_heap sample_recipients
           sample_attachments ["a"; "b"] eq_refl).
Defined.

Lemma degraded_mode_identifiers_collide_witness :
  ∃ h' p,
    NewMSendReq OpenError sample_heap sample_recipients sample_attachments
      = Some (h', p) ∧
    sr_UUID p = "1234567890ABCDEF" ∧
    sr_TransactionId p = "1234567890ABCDEF" ∧
    ni_UUID (NewMNotificationInd (dynamic := nat) OpenError) = sr_UUID p.
Proof.
  exact (degraded_mode_identifiers_collide sample_heap sample_recipients
           sample_attachments ["a"; "b"] eq_refl).
Defined.

(** ** The two ways to a notify response *)

Lemma notify_resp_eq_iff {Attachment dynamic : Type}
    (n : MNotificationInd dynamic) (c : MRetrieveConf Attachment dynamic)
    (s : Z) (r : bool) :
  MRetrieveConf_NewMNotifyRespInd c r = MNotificationInd_NewMNotifyRespInd n s r
  ↔ rc_UUID c = ni_UUID n ∧
    rc_TransactionId c = ni_TransactionId n ∧
    rc_Version c = ni_Version n ∧
    s = STATUS_RETRIEVED.
Proof.
  unfold MRetrieveConf_NewMNotifyRespInd, MNotificationInd_NewMNotifyRespInd.
  split.
  - intros Heq. injection Heq as Hu Ht Hv Hs. done.
  - intros (-> & -> & -> & ->). reflexivity.
Qed.

(** X12. The response derived from a retrieve confirmation is the
    response the notification gives for a status [s] exactly when [s] is
    Retrieved and the two messages agree on UUID, transaction id and
    version; nothing else of either message reaches the response. *)
Theorem NotifyResp_paths_agree {Attachment dynamic : Type}
    (n : MNotificationInd dynamic) (c : MRetrieveConf Attachment dynamic)
    (s : Z) (r : bool) :
  MRetrieveConf_NewMNotifyRespInd c r = MNotificationInd_NewMNotifyRespInd n s r
  ↔ rc_UUID c = ni_UUID n ∧
    rc_TransactionId c = ni_TransactionId n ∧
    rc_Version c = ni_Version n ∧
    s = STATUS_RETRIEVED.
Proof. apply notify_resp_eq_iff. Qed.

(** X13. A retrieve confirmation fresh from [NewMRetrieveConf] carries
    the UUID it was given and nothing else: the response derived from it
    before the decoder has filled it has that UUID, but an empty
    transaction id and version 0, so it answers the notification it came
    from only if that notification had those too. *)
Theorem NotifyResp_from_fresh_retrieve_conf {Attachment dynamic : Type}
    (zero : Attachment) (n : MNotificationInd dynamic) (s : Z) (r : bool) :
  let c := NewMRetrieveConf (dynamic := dynamic) zero (ni_UUID n) in
  let p := MRetrieveConf_NewMNotifyRespInd c r in
  nr_UUID p = nr_UUID (MNotificationInd_NewMNotifyRespInd n s r) ∧
  nr_TransactionId p = "" ∧
  nr_Version p = 0 ∧
  (p = MNotificationInd_NewMNotifyRespInd n STATUS_RETRIEVED r
   ↔ ni_TransactionId n = "" ∧ ni_Version n = 0).
Proof.
  cbn zeta. split_and!; try reflexivity.
  rewrite notify_resp_eq_iff. simpl. intuition.
Qed.

(** ** Looking up the declared fields *)


